(** * A domino board: [domino/board.py]

    The class [Board] keeps a [collections.deque] of dominoes placed end to
    end.  Its methods are embedded as computations over the board object:
    a Python exception is a value of [exn], a method is a computation in the
    exception monad stacked on a state monad, so that what a method did to
    the board before it raised stays visible. *)

From Stdlib Require Import ZArith List String Bool Lia DecimalString.
From ExtLib Require Import Structures.Monad Structures.MonadState
  Structures.MonadExc Data.Monads.StateMonad Data.Monads.EitherMonad.
Import ListNotations.
Import MonadNotation.
Local Open Scope monad_scope.
Local Open Scope string_scope.
Local Open Scope list_scope.
Local Open Scope Z_scope.

(** ** The collaborators of [board.py] *)

(** [str(n)] for a Python integer: decimal digits, a leading [-] when
    negative. *)
Definition str_int (n : Z) : string := NilZero.string_of_int (Z.to_int n).

Module Domino.

(** Modelled from the spec: the class [domino.Domino], which [board.py]
    imports and whose source is not part of the file at hand.  It is an
    ordered pair of faces [(first, second)]; faces are Python integers. *)
Record t : Type := mk { first : Z; second : Z }.

(** Modelled from the spec: [Domino.inverted], which returns
    [(second, first)] as a new value. *)
Definition inverted (d : t) : t := mk (second d) (first d).

(** Modelled from the spec: [Domino.__str__], the string form
    [[first|second]]. *)
Definition __str__ (d : t) : string :=
  ("[" ++ str_int (first d) ++ "|" ++ str_int (second d) ++ "]")%string.

End Domino.

(** Modelled from the spec: the exception classes [EmptyBoardException] and
    [EndsMismatchException] of package [domino], the two error signals of
    the board, each carrying its message.  [IndexError] is Python's own,
    raised by [deque.__getitem__]. *)
Inductive exn : Type :=
| IndexError
| EmptyBoardException (msg : string)
| EndsMismatchException (msg : string).

(** ** [collections.deque] *)

Module deque.

Definition t : Type := list Domino.t.

Definition empty : t := [].

Definition len (q : t) : Z := Z.of_nat (List.length q).

(** [q[i]]: a negative index counts from the right end; an index out of
    range raises [IndexError]. *)
Definition getitem (q : t) (i : Z) : exn + Domino.t :=
  let j := if i <? 0 then i + len q else i in
  if (j <? 0) || (len q <=? j) then inl IndexError
  else match nth_error q (Z.to_nat j) with
       | Some d => inr d
       | None => inl IndexError
       end.

Definition append (q : t) (d : Domino.t) : t := q ++ [d].

Definition appendleft (q : t) (d : Domino.t) : t := d :: q.

End deque.

(** [sep.join(l)] *)
Fixpoint join (sep : string) (l : list string) : string :=
match l with
| [] => ""
| [x] => x
| x :: l' => (x ++ sep ++ join sep l')%string
end.

(** ** The class [Board] *)

Module Board.

(** The object: one attribute, [self.board]. *)
Record t : Type := mk { board : deque.t }.

(** A method body: it may raise, and it may assign to the object. *)
Definition py : Type -> Type := eitherT exn (state t).

(** Lift the result of a pure operation that may raise. *)
Definition lift_exn {A : Type} (r : exn + A) : py A :=
  match r with
  | inl e => raise e
  | inr a => ret a
  end.

(** [except IndexError: raise e] around [body]: other exceptions pass. *)
Definition except_IndexError {A : Type} (body : py A) (e : exn) : py A :=
  catch body
        (fun x => match x with
                  | IndexError => raise e
                  | _ => raise x
                  end).

Definition __init__ : t := mk deque.empty.

Definition __len__ : py Z :=
  self <- get ;;
  ret (deque.len (board self)).

(** [not self]: [Board] defines [__len__] and no [__bool__]. *)
Definition not_self : py bool :=
  n <- __len__ ;;
  ret (n =? 0).

Definition left_end : py Z :=
  except_IndexError
    (self <- get ;;
     d <- lift_exn (deque.getitem (board self) 0) ;;
     ret (Domino.first d))
    (EmptyBoardException
       "Cannot retrieve the left end of the board because it is empty!").

Definition right_end : py Z :=
  except_IndexError
    (self <- get ;;
     d <- lift_exn (deque.getitem (board self) (-1)) ;;
     ret (Domino.second d))
    (EmptyBoardException
       "Cannot retrieve the right end of the board because it is empty!").

(** [self.board.append(d)] and [self.board.appendleft(d)] *)
Definition board_append (d : Domino.t) : py unit :=
  self <- get ;;
  put (mk (deque.append (board self) d)).

Definition board_appendleft (d : Domino.t) : py unit :=
  self <- get ;;
  put (mk (deque.appendleft (board self) d)).

Definition left_mismatch (d : Domino.t) : exn :=
  EndsMismatchException
    (Domino.__str__ d ++
     " cannot be added to the left of the board - values do not match!")%string.

Definition right_mismatch (d : Domino.t) : exn :=
  EndsMismatchException
    (Domino.__str__ d ++
     " cannot be added to the right of the board - values do not match!")%string.

Definition add_left (d : Domino.t) : py unit :=
  e <- not_self ;;
  if e : bool then board_append d
  else
    l <- left_end ;;
    if Domino.first d =? l then board_appendleft (Domino.inverted d)
    else
      l' <- left_end ;;
      if Domino.second d =? l' then board_appendleft d
      else raise (left_mismatch d).

Definition add_right (d : Domino.t) : py unit :=
  e <- not_self ;;
  if e : bool then board_append d
  else
    r <- right_end ;;
    if Domino.first d =? r then board_append d
    else
      r' <- right_end ;;
      if Domino.second d =? r' then board_append (Domino.inverted d)
      else raise (right_mismatch d).

Definition __str__ : py string :=
  self <- get ;;
  ret (join "" (map Domino.__str__ (board self))).

Definition __repr__ : py string := __str__.

(** Running a method on an object: what it returned or raised, and the
    object afterwards. *)
Definition run {A : Type} (c : py A) (self : t) : (exn + A) * t :=
  runState (unEitherT c) self.

End Board.

Import Board.
Import Domino.


(** ** Callers *)

(** One insertion request. *)
Inductive call : Type :=
| AddLeft (d : Domino.t)
| AddRight (d : Domino.t).

Definition do_call (c : call) : py unit :=
  match c with
  | AddLeft d => add_left d
  | AddRight d => add_right d
  end.

(** A caller that makes the requests in turn, goes on after a refused one,
    and returns how many went through. *)
Fixpoint try_calls (cs : list call) : py nat :=
  match cs with
  | [] => ret 0%nat
  | c :: cs' =>
      k <- catch (do_call c ;; ret 1%nat) (fun _ => ret 0%nat) ;;
      n <- try_calls cs' ;;
      ret (k + n)%nat
  end.

(** The boards a program can hold: a fresh one, and whatever a successful
    insertion makes of one it could hold. *)
Inductive reachable : Board.t -> Prop :=
| reach_init : reachable __init__
| reach_call (c : call) (b b' : Board.t) :
    reachable b -> run (do_call c) b = (inr tt, b') -> reachable b'.

(** Chain continuity, by position. *)
Definition chain (q : deque.t) : Prop :=
  forall (i : nat) (t u : Domino.t),
    nth_error q i = Some t -> nth_error q (S i) = Some u ->
    second t = first u.

(** The same, as a check that runs along the tiles. *)
Fixpoint linked (q : deque.t) : bool :=
  match q with
  | t :: (u :: _) as q' => (second t =? first u) && linked q'
  | _ => true
  end.

(** The outward faces of a sequence of tiles, when there is one. *)
Definition leftmost (q : deque.t) : option Z :=
  match q with
  | [] => None
  | t :: _ => Some (first t)
  end.

Definition rightmost (q : deque.t) : option Z :=
  match rev q with
  | [] => None
  | t :: _ => Some (second t)
  end.

Definition is_EmptyBoard {A : Type} (r : exn + A) : bool :=
  match r with
  | inl (EmptyBoardException _) => true
  | _ => false
  end.

Definition is_EndsMismatch {A : Type} (r : exn + A) : bool :=
  match r with
  | inl (EndsMismatchException _) => true
  | _ => false
  end.

Definition left_empty_error : exn :=
  EmptyBoardException
    "Cannot retrieve the left end of the board because it is empty!".

Definition right_empty_error : exn :=
  EmptyBoardException
    "Cannot retrieve the right end of the board because it is empty!".

(** The board as the player across the table sees it: the tiles in the
    opposite order, each one turned round. *)
Definition mirror (q : deque.t) : deque.t := rev (map inverted q).

(** The domino a request offers. *)
Definition offered (c : call) : Domino.t :=
  match c with
  | AddLeft d => d
  | AddRight d => d
  end.

(** * Properties *)

Example str_int_samples :
  str_int 0 = "0"%string /\ str_int 120 = "120"%string /\
  str_int (-17) = "-17"%string.
Proof. repeat split; reflexivity. Qed.

Example getitem_samples :
  let q := [Domino.mk 3 1; Domino.mk 1 2] in
  deque.getitem q 0 = inr (Domino.mk 3 1) /\
  deque.getitem q (-1) = inr (Domino.mk 1 2) /\
  deque.getitem q (-2) = inr (Domino.mk 3 1) /\
  deque.getitem q 2 = inl IndexError /\
  deque.getitem q (-3) = inl IndexError.
Proof. repeat split; reflexivity. Qed.

(** ** The deque *)

Lemma len_nonneg (q : deque.t) : 0 <= deque.len q.
Proof. unfold deque.len. lia. Qed.

Lemma len_app (q : deque.t) (d : Domino.t) :
  deque.len (q ++ [d]) = deque.len q + 1.
Proof. unfold deque.len. rewrite length_app. simpl. lia. Qed.

Lemma getitem_nil (i : Z) : deque.getitem [] i = inl IndexError.
Proof.
  unfold deque.getitem. cbn [deque.len List.length Z.of_nat].
  destruct (i <? 0) eqn:Hi.
  - rewrite Z.add_0_r, Hi. reflexivity.
  - replace (0 <=? i) with true by (symmetry; apply Z.leb_le; apply Z.ltb_ge; exact Hi).
    rewrite orb_true_r. reflexivity.
Qed.

Lemma getitem_first (t : Domino.t) (q : deque.t) :
  deque.getitem (t :: q) 0 = inr t.
Proof.
  unfold deque.getitem. cbn [Z.ltb Z.compare].
  replace (deque.len (t :: q) <=? 0) with false.
  - reflexivity.
  - symmetry. apply Z.leb_gt. unfold deque.len. cbn [List.length]. lia.
Qed.

Lemma getitem_last (q : deque.t) (t : Domino.t) :
  deque.getitem (q ++ [t]) (-1) = inr t.
Proof.
  unfold deque.getitem. cbn [Z.ltb Z.compare].
  rewrite len_app. pose proof (len_nonneg q) as Hq.
  replace (-1 + (deque.len q + 1)) with (deque.len q) by lia.
  replace (deque.len q <? 0) with false by (symmetry; apply Z.ltb_ge; lia).
  replace (deque.len q + 1 <=? deque.len q) with false
    by (symmetry; apply Z.leb_gt; lia).
  cbn [orb]. unfold deque.len. rewrite Nat2Z.id.
  rewrite nth_error_app2 by lia. rewrite Nat.sub_diag. reflexivity.
Qed.

(** ** What each method computes *)

Lemma run_len (b : Board.t) :
  run __len__ b = (inr (deque.len (board b)), b).
Proof. reflexivity. Qed.

Lemma run_not_self (b : Board.t) :
  run not_self b = (inr (deque.len (board b) =? 0), b).
Proof. reflexivity. Qed.

Lemma run_left_end (b : Board.t) :
  run left_end b =
  (match leftmost (board b) with
   | Some v => inr v
   | None => inl left_empty_error
   end, b).
Proof.
  destruct b as [[|t q]].
  - reflexivity.
  - unfold run, left_end, except_IndexError.
    cbn -[deque.getitem]. rewrite getitem_first. reflexivity.
Qed.

Lemma rightmost_app (q : deque.t) (t : Domino.t) :
  rightmost (q ++ [t]) = Some (second t).
Proof. unfold rightmost. rewrite rev_unit. reflexivity. Qed.

Lemma run_right_end (b : Board.t) :
  run right_end b =
  (match rightmost (board b) with
   | Some v => inr v
   | None => inl right_empty_error
   end, b).
Proof.
  destruct b as [q]. destruct q as [|t q] using rev_ind.
  - reflexivity.
  - cbn [board]. rewrite rightmost_app.
    unfold run, right_end, except_IndexError.
    cbn -[deque.getitem]. rewrite getitem_last. reflexivity.
Qed.

Lemma run_board_append (d : Domino.t) (b : Board.t) :
  run (board_append d) b = (inr tt, Board.mk (board b ++ [d])).
Proof. reflexivity. Qed.

Lemma run_board_appendleft (d : Domino.t) (b : Board.t) :
  run (board_appendleft d) b = (inr tt, Board.mk (d :: board b)).
Proof. reflexivity. Qed.

(** Sequencing two computations, seen through [run]. *)
Lemma run_bind {A B : Type} (c : py A) (k : A -> py B) (b : Board.t) :
  run (x <- c ;; k x) b =
  match run c b with
  | (inl e, b') => (inl e, b')
  | (inr a, b') => run (k a) b'
  end.
Proof.
  unfold run. cbn. destruct (runState (unEitherT c) b) as [[e|a] b']; reflexivity.
Qed.

Lemma run_raise {A : Type} (e : exn) (b : Board.t) :
  run (raise e : py A) b = (inl e, b).
Proof. reflexivity. Qed.

Lemma add_left_eq (d : Domino.t) (b : Board.t) :
  run (add_left d) b =
  match leftmost (board b) with
  | None => (inr tt, Board.mk (board b ++ [d]))
  | Some l =>
      if first d =? l then (inr tt, Board.mk (inverted d :: board b))
      else if second d =? l then (inr tt, Board.mk (d :: board b))
      else (inl (left_mismatch d), b)
  end.
Proof.
  unfold add_left. rewrite run_bind, run_not_self.
  destruct b as [[|t q]].
  - reflexivity.
  - replace (deque.len (board (Board.mk (t :: q))) =? 0) with false
      by (symmetry; apply Z.eqb_neq; unfold deque.len; cbn [board List.length]; lia).
    rewrite run_bind, run_left_end. cbn [board leftmost].
    destruct (first d =? first t).
    + apply run_board_appendleft.
    + rewrite run_bind, run_left_end. cbn [board leftmost].
      destruct (second d =? first t).
      * apply run_board_appendleft.
      * apply run_raise.
Qed.

Lemma add_right_eq (d : Domino.t) (b : Board.t) :
  run (add_right d) b =
  match rightmost (board b) with
  | None => (inr tt, Board.mk (board b ++ [d]))
  | Some r =>
      if first d =? r then (inr tt, Board.mk (board b ++ [d]))
      else if second d =? r then (inr tt, Board.mk (board b ++ [inverted d]))
      else (inl (right_mismatch d), b)
  end.
Proof.
  unfold add_right. rewrite run_bind, run_not_self.
  destruct b as [q]. destruct q as [|t q _] using rev_ind.
  - reflexivity.
  - replace (deque.len (board (Board.mk (q ++ [t]))) =? 0) with false
      by (symmetry; apply Z.eqb_neq; cbn [board]; rewrite len_app;
          pose proof (len_nonneg q); lia).
    rewrite run_bind, run_right_end. cbn [board]. rewrite rightmost_app.
    destruct (first d =? second t).
    + apply run_board_append.
    + rewrite run_bind, run_right_end. cbn [board]. rewrite rightmost_app.
      destruct (second d =? second t).
      * apply run_board_append.
      * apply run_raise.
Qed.

Lemma run_catch {A : Type} (c : py A) (h : exn -> py A) (b : Board.t) :
  run (catch c h) b =
  match run c b with
  | (inl e, b') => run (h e) b'
  | (inr a, b') => (inr a, b')
  end.
Proof.
  unfold run. cbn. destruct (runState (unEitherT c) b) as [[e|a] b']; reflexivity.
Qed.

Lemma run_ret {A : Type} (a : A) (b : Board.t) : run (ret a : py A) b = (inr a, b).
Proof. reflexivity. Qed.

(** An insertion either goes through and adds one tile at one end, or is
    refused and leaves the object as it was. *)
Lemma add_left_cases (d : Domino.t) (b : Board.t) :
  (exists t, run (add_left d) b = (inr tt, Board.mk (t :: board b)) /\
             (t = d \/ t = inverted d) /\
             match leftmost (board b) with
             | Some l => second t = l
             | None => True
             end) \/
  (run (add_left d) b = (inl (left_mismatch d), b) /\
   exists l, leftmost (board b) = Some l /\ first d <> l /\ second d <> l).
Proof.
  rewrite add_left_eq. destruct b as [[|t0 q]]; cbn [board leftmost].
  - left. exists d. auto.
  - destruct (Z.eqb_spec (first d) (first t0)) as [E1|N1].
    + left. exists (inverted d). cbn. auto.
    + destruct (Z.eqb_spec (second d) (first t0)) as [E2|N2].
      * left. exists d. auto.
      * right. split; [reflexivity|]. exists (first t0). auto.
Qed.

Lemma add_right_cases (d : Domino.t) (b : Board.t) :
  (exists t, run (add_right d) b = (inr tt, Board.mk (board b ++ [t])) /\
             (t = d \/ t = inverted d) /\
             match rightmost (board b) with
             | Some r => first t = r
             | None => True
             end) \/
  (run (add_right d) b = (inl (right_mismatch d), b) /\
   exists r, rightmost (board b) = Some r /\ first d <> r /\ second d <> r).
Proof.
  rewrite add_right_eq. destruct (rightmost (board b)) as [r|].
  - destruct (Z.eqb_spec (first d) r) as [E1|N1].
    + left. exists d. auto.
    + destruct (Z.eqb_spec (second d) r) as [E2|N2].
      * left. exists (inverted d). cbn. auto.
      * right. split; [reflexivity|]. exists r. auto.
  - left. exists d. auto.
Qed.

(** ** Chain continuity *)

Lemma rightmost_cons (t u : Domino.t) (q : deque.t) :
  rightmost (t :: u :: q) = rightmost (u :: q).
Proof.
  revert t u. induction q as [|v q IH] using rev_ind; intros t u.
  - reflexivity.
  - change (t :: u :: q ++ [v]) with ((t :: u :: q) ++ [v]).
    change (u :: q ++ [v]) with ((u :: q) ++ [v]).
    rewrite !rightmost_app. reflexivity.
Qed.

Lemma linked_cons (t : Domino.t) (q : deque.t) :
  linked (t :: q) =
  match leftmost q with
  | Some l => (second t =? l) && linked q
  | None => true
  end.
Proof. destruct q; reflexivity. Qed.

Lemma linked_snoc (q : deque.t) (t : Domino.t) :
  linked (q ++ [t]) =
  match rightmost q with
  | Some r => linked q && (r =? first t)
  | None => true
  end.
Proof.
  induction q as [|u q IH].
  - reflexivity.
  - destruct q as [|v q].
    + cbn. rewrite andb_true_r. reflexivity.
    + rewrite rightmost_cons.
      change (linked ((u :: v :: q) ++ [t]))
        with ((second u =? first v) && linked ((v :: q) ++ [t])).
      rewrite IH. destruct (rightmost (v :: q)) as [r|] eqn:Hr.
      * cbn [linked]. rewrite andb_assoc. reflexivity.
      * exfalso. clear -Hr. unfold rightmost in Hr.
        destruct (rev (v :: q)) eqn:Hv; [|discriminate].
        apply (f_equal (@List.length _)) in Hv.
        rewrite length_rev in Hv. discriminate.
Qed.

Lemma linked_chain (q : deque.t) : linked q = true -> chain q.
Proof.
  induction q as [|t q IH]; intros H i a c Ha Hc.
  - destruct i; discriminate.
  - destruct q as [|u q]; [destruct i as [|[|]]; discriminate|].
    cbn [linked] in H. apply andb_prop in H as [Htu Hq].
    destruct i as [|i].
    + cbn in Ha, Hc. injection Ha as <-. injection Hc as <-.
      apply Z.eqb_eq. exact Htu.
    + apply (IH Hq i); assumption.
Qed.

Lemma chain_linked (q : deque.t) : chain q -> linked q = true.
Proof.
  induction q as [|t q IH]; intros H; [reflexivity|].
  destruct q as [|u q]; [reflexivity|].
  cbn [linked]. apply andb_true_intro. split.
  - apply Z.eqb_eq. apply (H 0%nat); reflexivity.
  - apply IH. intros i a c Ha Hc. apply (H (S i)); assumption.
Qed.

Lemma do_call_linked (c : call) (b b' : Board.t) :
  run (do_call c) b = (inr tt, b') ->
  linked (board b) = true -> linked (board b') = true.
Proof.
  intros Hrun Hb. destruct c as [d|d]; cbn [do_call] in Hrun.
  - destruct (add_left_cases d b) as [(t & E & _ & Ht)|(E & _)];
      rewrite E in Hrun; [|discriminate].
    injection Hrun as <-. cbn [board]. rewrite linked_cons.
    destruct (leftmost (board b)) as [l|]; [|reflexivity].
    rewrite Hb, andb_true_r. apply Z.eqb_eq. exact Ht.
  - destruct (add_right_cases d b) as [(t & E & _ & Ht)|(E & _)];
      rewrite E in Hrun; [|discriminate].
    injection Hrun as <-. cbn [board]. rewrite linked_snoc.
    destruct (rightmost (board b)) as [r|]; [|reflexivity].
    rewrite Hb. cbn [andb]. apply Z.eqb_eq. symmetry. exact Ht.
Qed.

(** C1. Chain continuity: on every board reached from the empty board by
    successful [add_left] and [add_right] calls, the second face of each
    stored tile equals the first face of the tile to its right. *)
Theorem chain_continuity (b : Board.t) :
  reachable b ->
  forall (i : nat) (t u : Domino.t),
    nth_error (board b) i = Some t ->
    nth_error (board b) (S i) = Some u ->
    second t = first u.
Proof.
  intros Hb. apply linked_chain.
  induction Hb as [|c b b' _ IH Hrun].
  - reflexivity.
  - exact (do_call_linked c b b' Hrun IH).
Qed.

Lemma chain_continuity_witness :
  reachable (Board.mk [Domino.mk 3 1; Domino.mk 1 2]) /\
  second (Domino.mk 3 1) = first (Domino.mk 1 2).
Proof.
  assert (H : reachable (Board.mk [Domino.mk 3 1; Domino.mk 1 2])).
  { apply (reach_call (AddLeft (Domino.mk 1 3)) (Board.mk [Domino.mk 1 2])).
    - apply (reach_call (AddLeft (Domino.mk 1 2)) __init__).
      + exact reach_init.
      + reflexivity.
    - reflexivity. }
  split.
  - exact H.
  - apply (chain_continuity _ H 0%nat); reflexivity.
Defined.

(** ** Insertion *)

(** C2. [add_left d]: on the empty board [d] becomes the only tile, as
    given; on a board whose leftmost tile shows [L] outward, [d] goes in
    inverted at position 0 when [d.first == L], else unchanged at position 0
    when [d.second == L], else the call raises the mismatch exception.  The
    first face is tested first. *)
Theorem add_left_spec (d : Domino.t) :
  run (add_left d) (Board.mk []) = (inr tt, Board.mk [d]) /\
  forall (t : Domino.t) (q : deque.t),
    let b := Board.mk (t :: q) in
    let L := first t in
    run left_end b = (inr L, b) /\
    run (add_left d) b =
    if first d =? L then (inr tt, Board.mk (inverted d :: t :: q))
    else if second d =? L then (inr tt, Board.mk (d :: t :: q))
    else (inl (EndsMismatchException
                 (Domino.__str__ d ++
                  " cannot be added to the left of the board - values do not match!")%string),
          b).
Proof.
  split; [reflexivity|]. intros t q b L. split.
  - apply (run_left_end b).
  - apply (add_left_eq d b).
Qed.

(** C3. [add_right d]: on the empty board [d] is appended as given; on a
    board whose rightmost tile shows [R] outward, [d] is appended unchanged
    when [d.first == R], else inverted when [d.second == R], else the call
    raises the mismatch exception. *)
Theorem add_right_spec (d : Domino.t) :
  run (add_right d) (Board.mk []) = (inr tt, Board.mk [d]) /\
  forall (q : deque.t) (t : Domino.t),
    let b := Board.mk (q ++ [t]) in
    let R := second t in
    run right_end b = (inr R, b) /\
    run (add_right d) b =
    if first d =? R then (inr tt, Board.mk ((q ++ [t]) ++ [d]))
    else if second d =? R then (inr tt, Board.mk ((q ++ [t]) ++ [inverted d]))
    else (inl (EndsMismatchException
                 (Domino.__str__ d ++
                  " cannot be added to the right of the board - values do not match!")%string),
          b).
Proof.
  split; [reflexivity|]. intros q t b R. split.
  - rewrite (run_right_end b). unfold b. cbn [board].
    rewrite rightmost_app. reflexivity.
  - rewrite (add_right_eq d b). unfold b. cbn [board].
    rewrite rightmost_app. reflexivity.
Qed.

(** ** The ends *)

Lemma rightmost_nth (q : deque.t) :
  rightmost q =
  option_map second (nth_error q (List.length q - 1)).
Proof.
  destruct q as [|t q _] using rev_ind.
  - reflexivity.
  - rewrite rightmost_app, length_app. cbn [List.length].
    rewrite nth_error_app2 by lia.
    replace (List.length q + 1 - 1 - List.length q)%nat with 0%nat by lia.
    reflexivity.
Qed.

(** C4. [left_end] returns [tiles[0].first] and [right_end] returns
    [tiles[n-1].second] on a board of [n >= 1] tiles; each raises the
    empty-board exception exactly when there is no tile; neither changes
    the board. *)
Theorem ends_spec (b : Board.t) :
  let n := List.length (board b) in
  run left_end b =
  (match nth_error (board b) 0 with
   | Some t => inr (first t)
   | None => inl left_empty_error
   end, b) /\
  run right_end b =
  (match nth_error (board b) (n - 1) with
   | Some t => inr (second t)
   | None => inl right_empty_error
   end, b) /\
  is_EmptyBoard (fst (run left_end b)) = (n =? 0)%nat /\
  is_EmptyBoard (fst (run right_end b)) = (n =? 0)%nat.
Proof.
  intros n. rewrite run_left_end, run_right_end, rightmost_nth. fold n.
  destruct b as [[|t q]]; cbn [board] in *.
  - repeat split; reflexivity.
  - assert (Hn : exists u, nth_error (t :: q) (n - 1) = Some u).
    { destruct (nth_error (t :: q) (n - 1)) as [u|] eqn:E; [eauto|].
      apply nth_error_None in E. unfold n in E. cbn [List.length] in E. lia. }
    destruct Hn as [u Hu]. rewrite Hu. repeat split; reflexivity.
Qed.

(** ** Refused insertions *)

Lemma do_call_cases (c : call) (b : Board.t) :
  (exists b', run (do_call c) b = (inr tt, b') /\
              deque.len (board b') = deque.len (board b) + 1) \/
  (exists msg, run (do_call c) b = (inl (EndsMismatchException msg), b)).
Proof.
  destruct c as [d|d]; cbn [do_call].
  - destruct (add_left_cases d b) as [(t & E & _)|(E & _)].
    + left. eexists. split; [exact E|]. cbn [board].
      unfold deque.len. cbn [List.length]. lia.
    + right. eexists. exact E.
  - destruct (add_right_cases d b) as [(t & E & _)|(E & _)].
    + left. eexists. split; [exact E|]. cbn [board]. apply len_app.
    + right. eexists. exact E.
Qed.

(** C5. Atomic rejection: when [add_left] or [add_right] raises, it raises
    the mismatch exception and the board is the one it was before the call,
    so that length, both ends and the rendering are what they were; a call
    that changes the board has succeeded. *)
Theorem atomic_rejection (d : Domino.t) (b b' : Board.t) (e : exn) :
  run (add_left d) b = (inl e, b') \/ run (add_right d) b = (inl e, b') ->
  (exists msg, e = EndsMismatchException msg) /\
  b' = b /\
  run __len__ b' = run __len__ b /\
  run left_end b' = run left_end b /\
  run right_end b' = run right_end b /\
  run Board.__str__ b' = run Board.__str__ b.
Proof.
  intros H.
  assert (Hc : exists c, run (do_call c) b = (inl e, b')).
  { destruct H as [H|H]; [exists (AddLeft d)|exists (AddRight d)]; exact H. }
  destruct Hc as [c Hc].
  destruct (do_call_cases c b) as [(b1 & E & _)|(msg & E)];
    rewrite E in Hc; [discriminate|].
  injection Hc as <- <-. split; [eauto|]. repeat split; reflexivity.
Qed.

Lemma atomic_rejection_witness :
  let d := Domino.mk 1 3 in
  let b := Board.mk [Domino.mk 1 2] in
  run (add_right d) b = (inl (right_mismatch d), b) /\
  ((exists msg, right_mismatch d = EndsMismatchException msg) /\
   b = b /\
   run __len__ b = run __len__ b /\
   run left_end b = run left_end b /\
   run right_end b = run right_end b /\
   run Board.__str__ b = run Board.__str__ b).
Proof.
  intros d b.
  assert (H : run (add_right d) b = (inl (right_mismatch d), b))
    by reflexivity.
  split.
  - exact H.
  - exact (atomic_rejection d b b (right_mismatch d) (or_intror H)).
Defined.

(** ** Length *)

Lemma try_calls_len (cs : list call) (b : Board.t) :
  exists (k : nat) (b' : Board.t),
    run (try_calls cs) b = (inr k, b') /\
    deque.len (board b') = deque.len (board b) + Z.of_nat k.
Proof.
  revert b. induction cs as [|c cs IH]; intros b.
  - exists 0%nat, b. split; [reflexivity|]. cbn. lia.
  - cbn [try_calls]. rewrite run_bind, run_catch, run_bind.
    destruct (do_call_cases c b) as [(b1 & E & L1)|(msg & E)]; rewrite E.
    + rewrite run_ret, run_bind.
      destruct (IH b1) as (k & b2 & E2 & L2). rewrite E2, run_ret.
      exists (1 + k)%nat, b2. split; [reflexivity|]. lia.
    + rewrite run_ret, run_bind.
      destruct (IH b) as (k & b2 & E2 & L2). rewrite E2, run_ret.
      exists (0 + k)%nat, b2. split; [reflexivity|]. exact L2.
Qed.

(** C6. [len] never raises and is the number of stored tiles, 0 on the
    empty board; a successful insertion adds 1 to it and a refused one adds
    nothing; after any sequence of insertion requests on a fresh board it is
    the number of requests that went through. *)
Theorem length_counts_insertions :
  (forall b : Board.t,
      run __len__ b = (inr (Z.of_nat (List.length (board b))), b)) /\
  run __len__ __init__ = (inr 0, __init__) /\
  (forall (c : call) (b : Board.t),
      let (r, b') := run (do_call c) b in
      deque.len (board b') =
      deque.len (board b) + match r with inr _ => 1 | inl _ => 0 end) /\
  (forall cs : list call,
      exists (k : nat) (b' : Board.t),
        run (try_calls cs) __init__ = (inr k, b') /\
        run __len__ b' = (inr (Z.of_nat k), b')).
Proof.
  split; [reflexivity|]. split; [reflexivity|]. split.
  - intros c b.
    destruct (do_call_cases c b) as [(b1 & E & L1)|(msg & E)]; rewrite E.
    + exact L1.
    + lia.
  - intros cs. destruct (try_calls_len cs __init__) as (k & b' & E & L).
    exists k, b'. split; [exact E|]. rewrite run_len, L. reflexivity.
Qed.

(** ** Rendering *)

Lemma append_empty_r (s : string) : (s ++ "")%string = s.
Proof. induction s as [|a s IH]; cbn; [reflexivity|]. rewrite IH. reflexivity. Qed.

Lemma join_empty (l : list string) :
  join "" l = fold_right String.append ""%string l.
Proof.
  induction l as [|x l IH]; [reflexivity|].
  destruct l as [|y l].
  - cbn. symmetry. apply append_empty_r.
  - change (join "" (x :: y :: l)) with (x ++ "" ++ join "" (y :: l))%string.
    rewrite IH. reflexivity.
Qed.

(** C7. The rendering is the string forms [[first|second]] of the stored
    tiles, in board order, put one after the other with nothing in between;
    it is the empty string for the empty board. *)
Theorem render_spec :
  run Board.__str__ __init__ = (inr ""%string, __init__) /\
  (forall b : Board.t,
      run Board.__str__ b =
      (inr (fold_right String.append ""%string
              (map (fun t : Domino.t =>
                      ("[" ++ str_int (first t) ++ "|" ++ str_int (second t) ++ "]")%string)
                   (board b))), b)) /\
  (forall b : Board.t, run __repr__ b = run Board.__str__ b).
Proof.
  split; [reflexivity|]. split; [|reflexivity].
  intros b. unfold run, Board.__str__. cbn -[join].
  rewrite join_empty. reflexivity.
Qed.

(** ** The scenario of the class docstring *)

(** C8. On a fresh board, adding [1|2] on the left gives the board [1|2]
    with ends 1 and 2 and length 1; adding [1|3] on the right is then
    refused; adding [1|3] on the left gives [3|1][1|2] with ends 3 and 2
    and length 2. *)
Theorem docstring_scenario :
  let d1 := Domino.mk 1 2 in
  let d2 := Domino.mk 1 3 in
  let b1 := Board.mk [Domino.mk 1 2] in
  let b2 := Board.mk [Domino.mk 3 1; Domino.mk 1 2] in
  run (add_left d1) __init__ = (inr tt, b1) /\
  run Board.__str__ b1 = (inr "[1|2]"%string, b1) /\
  run left_end b1 = (inr 1, b1) /\
  run right_end b1 = (inr 2, b1) /\
  run __len__ b1 = (inr 1, b1) /\
  run (add_right d2) b1 =
  (inl (EndsMismatchException
          "[1|3] cannot be added to the right of the board - values do not match!"),
   b1) /\
  run (add_left d2) b1 = (inr tt, b2) /\
  run Board.__str__ b2 = (inr "[3|1][1|2]"%string, b2) /\
  run left_end b2 = (inr 3, b2) /\
  run right_end b2 = (inr 2, b2) /\
  run __len__ b2 = (inr 2, b2).
Proof. cbv zeta. repeat split; vm_compute; reflexivity. Qed.

(** ** Orientation *)

Lemma left_end_value (b : Board.t) (v : Z) :
  run left_end b = (inr v, b) <-> leftmost (board b) = Some v.
Proof.
  rewrite run_left_end. destruct (leftmost (board b)) as [l|]; split; intros H.
  - injection H as <-. reflexivity.
  - injection H as <-. reflexivity.
  - discriminate.
  - discriminate.
Qed.

Lemma right_end_value (b : Board.t) (v : Z) :
  run right_end b = (inr v, b) <-> rightmost (board b) = Some v.
Proof.
  rewrite run_right_end. destruct (rightmost (board b)) as [r|]; split; intros H.
  - injection H as <-. reflexivity.
  - injection H as <-. reflexivity.
  - discriminate.
  - discriminate.
Qed.

(** C9. Orientation: adding the tile [(x, y)] on the left of a board whose
    left end is [x] succeeds and makes [y] the left end; adding it on the
    left of a board whose left end is [y] succeeds and makes [x] the left
    end; likewise on the right with the right end. *)
Theorem orientation_round_trip (x y : Z) (b : Board.t) :
  (run left_end b = (inr x, b) ->
   exists b', run (add_left (Domino.mk x y)) b = (inr tt, b') /\
              run left_end b' = (inr y, b')) /\
  (run left_end b = (inr y, b) ->
   exists b', run (add_left (Domino.mk x y)) b = (inr tt, b') /\
              run left_end b' = (inr x, b')) /\
  (run right_end b = (inr x, b) ->
   exists b', run (add_right (Domino.mk x y)) b = (inr tt, b') /\
              run right_end b' = (inr y, b')) /\
  (run right_end b = (inr y, b) ->
   exists b', run (add_right (Domino.mk x y)) b = (inr tt, b') /\
              run right_end b' = (inr x, b')).
Proof.
  repeat split; intros H.
  - apply left_end_value in H. rewrite add_left_eq, H. cbn [first second].
    rewrite Z.eqb_refl. eexists. split; [reflexivity|].
    apply left_end_value. reflexivity.
  - apply left_end_value in H. rewrite add_left_eq, H. cbn [first second].
    rewrite Z.eqb_refl. destruct (Z.eqb_spec x y) as [->|N].
    + eexists. split; [reflexivity|]. apply left_end_value. reflexivity.
    + eexists. split; [reflexivity|]. apply left_end_value. reflexivity.
  - apply right_end_value in H. rewrite add_right_eq, H. cbn [first second].
    rewrite Z.eqb_refl. eexists. split; [reflexivity|].
    apply right_end_value. cbn [board]. apply rightmost_app.
  - apply right_end_value in H. rewrite add_right_eq, H. cbn [first second].
    rewrite Z.eqb_refl. destruct (Z.eqb_spec x y) as [->|N].
    + eexists. split; [reflexivity|]. apply right_end_value.
      cbn [board]. apply rightmost_app.
    + eexists. split; [reflexivity|]. apply right_end_value.
      cbn [board]. apply rightmost_app.
Qed.

Lemma orientation_round_trip_witness :
  let b := Board.mk [Domino.mk 1 2] in
  (run left_end b = (inr 1, b) /\
   exists b', run (add_left (Domino.mk 1 3)) b = (inr tt, b') /\
              run left_end b' = (inr 3, b')) /\
  (run left_end b = (inr 1, b) /\
   exists b', run (add_left (Domino.mk 3 1)) b = (inr tt, b') /\
              run left_end b' = (inr 3, b')) /\
  (run right_end b = (inr 2, b) /\
   exists b', run (add_right (Domino.mk 2 5)) b = (inr tt, b') /\
              run right_end b' = (inr 5, b')) /\
  (run right_end b = (inr 2, b) /\
   exists b', run (add_right (Domino.mk 5 2)) b = (inr tt, b') /\
              run right_end b' = (inr 5, b')).
Proof.
  intros b.
  assert (HL : run left_end b = (inr 1, b)) by reflexivity.
  assert (HR : run right_end b = (inr 2, b)) by reflexivity.
  split; [|split; [|split]]; (split; [assumption|]).
  - exact (proj1 (orientation_round_trip 1 3 b) HL).
  - exact (proj1 (proj2 (orientation_round_trip 3 1 b)) HL).
  - exact (proj1 (proj2 (proj2 (orientation_round_trip 2 5 b))) HR).
  - exact (proj2 (proj2 (proj2 (orientation_round_trip 5 2 b))) HR).
Defined.

(** ** Frame *)

Lemma leftmost_app (q : deque.t) (t : Domino.t) :
  q <> [] -> leftmost (q ++ [t]) = leftmost q.
Proof. destruct q; [congruence|reflexivity]. Qed.

Lemma rightmost_cons_ne (t : Domino.t) (q : deque.t) :
  q <> [] -> rightmost (t :: q) = rightmost q.
Proof. destruct q; [congruence|]. intros _. apply rightmost_cons. Qed.

(** C10. Frame: a successful [add_left] on a non-empty board leaves the
    right end as it was, moves every stored tile one position to the right
    and adds one tile; a successful [add_right] on a non-empty board leaves
    the left end as it was, keeps every stored tile at its position and adds
    one tile. *)
Theorem insertion_frame (d : Domino.t) (b b' : Board.t) :
  board b <> [] ->
  (run (add_left d) b = (inr tt, b') ->
   (exists r, run right_end b = (inr r, b) /\ run right_end b' = (inr r, b')) /\
   (forall i : nat, nth_error (board b') (S i) = nth_error (board b) i) /\
   List.length (board b') = S (List.length (board b))) /\
  (run (add_right d) b = (inr tt, b') ->
   (exists l, run left_end b = (inr l, b) /\ run left_end b' = (inr l, b')) /\
   (forall i : nat, (i < List.length (board b))%nat ->
                    nth_error (board b') i = nth_error (board b) i) /\
   List.length (board b') = S (List.length (board b))).
Proof.
  intros Hne. split; intros Hrun.
  - destruct (add_left_cases d b) as [(t & E & _)|(E & _)];
      rewrite E in Hrun; [|discriminate].
    injection Hrun as <-. cbn [board]. repeat split.
    rewrite !run_right_end. cbn [board]. rewrite (rightmost_cons_ne t _ Hne).
    destruct (rightmost (board b)) as [r|] eqn:Hr.
    + exists r. split; reflexivity.
    + exfalso. unfold rightmost in Hr.
      destruct (rev (board b)) eqn:Hv; [|discriminate].
      apply (f_equal (@rev _)) in Hv. rewrite rev_involutive in Hv.
      exact (Hne Hv).
  - destruct (add_right_cases d b) as [(t & E & _)|(E & _)];
      rewrite E in Hrun; [|discriminate].
    injection Hrun as <-. cbn [board]. repeat split.
    + rewrite !run_left_end. cbn [board]. rewrite (leftmost_app _ t Hne).
      destruct (board b) as [|t0 q]; [congruence|].
      exists (first t0). split; reflexivity.
    + intros i Hi. apply nth_error_app1. exact Hi.
    + rewrite length_app. cbn [List.length]. lia.
Qed.

Lemma insertion_frame_witness :
  let b := Board.mk [Domino.mk 1 2] in
  let b' := Board.mk [Domino.mk 3 1; Domino.mk 1 2] in
  board b <> [] /\
  run (add_left (Domino.mk 1 3)) b = (inr tt, b') /\
  (exists r, run right_end b = (inr r, b) /\ run right_end b' = (inr r, b')) /\
  (forall i : nat, nth_error (board b') (S i) = nth_error (board b) i) /\
  List.length (board b') = S (List.length (board b)).
Proof.
  intros b b'.
  assert (Hne : board b <> []) by discriminate.
  assert (Hrun : run (add_left (Domino.mk 1 3)) b = (inr tt, b')) by reflexivity.
  split; [exact Hne|]. split; [exact Hrun|].
  exact (proj1 (insertion_frame (Domino.mk 1 3) b b' Hne) Hrun).
Defined.

(** * Further properties of the methods *)

(** ** Helper facts *)

Lemma inverted_involutive (d : Domino.t) : inverted (inverted d) = d.
Proof. destruct d. reflexivity. Qed.

Lemma double_inverted (d : Domino.t) : first d = second d -> inverted d = d.
Proof. destruct d as [x y]. cbn. intros ->. reflexivity. Qed.

Lemma leftmost_None (q : deque.t) : leftmost q = None -> q = [].
Proof. destruct q; [reflexivity|discriminate]. Qed.

Lemma rightmost_None (q : deque.t) : rightmost q = None -> q = [].
Proof.
  unfold rightmost. destruct (rev q) eqn:Hv; [|discriminate]. intros _.
  apply (f_equal (@rev _)) in Hv. rewrite rev_involutive in Hv. exact Hv.
Qed.

(** On a board with a tile both ends are there. *)
Lemma ends_of_nonempty (q : deque.t) :
  q <> [] -> exists l r, leftmost q = Some l /\ rightmost q = Some r.
Proof.
  intros Hne.
  destruct (leftmost q) as [l|] eqn:HL;
    [|exfalso; exact (Hne (leftmost_None q HL))].
  destruct (rightmost q) as [r|] eqn:HR;
    [|exfalso; exact (Hne (rightmost_None q HR))].
  eauto.
Qed.

Lemma mirror_app (q : deque.t) (t : Domino.t) :
  mirror (q ++ [t]) = inverted t :: mirror q.
Proof. unfold mirror. rewrite map_app, rev_app_distr. reflexivity. Qed.

Lemma mirror_cons (t : Domino.t) (q : deque.t) :
  mirror (t :: q) = mirror q ++ [inverted t].
Proof. reflexivity. Qed.

Lemma leftmost_mirror (q : deque.t) : leftmost (mirror q) = rightmost q.
Proof.
  destruct q as [|t q _] using rev_ind.
  - reflexivity.
  - rewrite mirror_app, rightmost_app. reflexivity.
Qed.

(** One request of the counting caller. *)
Lemma try_calls_cons (c : call) (cs : list call) (b : Board.t) :
  run (try_calls (c :: cs)) b =
  match run (do_call c) b with
  | (r, b1) =>
      match run (try_calls cs) b1 with
      | (inr n, b2) =>
          (inr ((match r with inr _ => 1 | inl _ => 0 end) + n)%nat, b2)
      | (inl e, b2) => (inl e, b2)
      end
  end.
Proof.
  cbn [try_calls]. rewrite run_bind, run_catch, run_bind.
  destruct (run (do_call c) b) as [[e|[]] b1].
  - rewrite run_ret, run_bind.
    destruct (run (try_calls cs) b1) as [[e'|n] b2]; reflexivity.
  - rewrite run_ret, run_bind.
    destruct (run (try_calls cs) b1) as [[e'|n] b2]; reflexivity.
Qed.

(** ** The first tile *)

(** X1. On a board without tiles the two insertions do the same thing: the
    tile is stored as offered, whichever way round, and its faces become
    the left and the right end. *)
Theorem first_insertion (d : Domino.t) (b : Board.t) :
  board b = [] ->
  let b' := Board.mk [d] in
  run (add_left d) b = (inr tt, b') /\
  run (add_right d) b = (inr tt, b') /\
  run left_end b' = (inr (first d), b') /\
  run right_end b' = (inr (second d), b') /\
  run __len__ b' = (inr 1, b').
Proof.
  destruct b as [q]. cbn [board]. intros ->. repeat split; reflexivity.
Qed.

Lemma first_insertion_witness :
  board __init__ = [] /\
  run (add_left (Domino.mk 4 6)) __init__ = (inr tt, Board.mk [Domino.mk 4 6]) /\
  run left_end (Board.mk [Domino.mk 4 6]) = (inr 4, Board.mk [Domino.mk 4 6]).
Proof.
  assert (H : board __init__ = []) by reflexivity.
  pose proof (first_insertion (Domino.mk 4 6) __init__ H) as (HL & _ & HE & _).
  split; [exact H|]. split; [exact HL|exact HE].
Defined.

(** ** Which way round the tile is offered *)

(** X2. On a board with a tile, offering a domino or the same domino turned
    round comes to the same: both are accepted or both refused, and when
    accepted the board afterwards is the same. *)
Theorem offered_orientation_irrelevant (d : Domino.t) (b : Board.t) :
  board b <> [] ->
  run (add_left (inverted d)) b =
  (match run (add_left d) b with
   | (inr u, b') => (inr u, b')
   | (inl _, b') => (inl (left_mismatch (inverted d)), b')
   end) /\
  run (add_right (inverted d)) b =
  (match run (add_right d) b with
   | (inr u, b') => (inr u, b')
   | (inl _, b') => (inl (right_mismatch (inverted d)), b')
   end).
Proof.
  intros Hne. destruct (ends_of_nonempty _ Hne) as (l & r & HL & HR).
  rewrite !add_left_eq, !add_right_eq, HL, HR, inverted_involutive.
  cbn [inverted first second]. split.
  - destruct (Z.eqb_spec (first d) l) as [E1|N1];
      destruct (Z.eqb_spec (second d) l) as [E2|N2]; try reflexivity.
    rewrite (double_inverted d) by congruence. reflexivity.
  - destruct (Z.eqb_spec (first d) r) as [E1|N1];
      destruct (Z.eqb_spec (second d) r) as [E2|N2]; try reflexivity.
    rewrite (double_inverted d) by congruence. reflexivity.
Qed.

Lemma offered_orientation_irrelevant_witness :
  let b := Board.mk [Domino.mk 1 2] in
  board b <> [] /\
  run (add_left (Domino.mk 3 1)) b = (inr tt, Board.mk [Domino.mk 3 1; Domino.mk 1 2]) /\
  run (add_left (Domino.mk 1 3)) b = (inr tt, Board.mk [Domino.mk 3 1; Domino.mk 1 2]).
Proof.
  intros b.
  assert (Hne : board b <> []) by discriminate.
  split; [exact Hne|]. split; [reflexivity|].
  exact (proj1 (offered_orientation_irrelevant (Domino.mk 3 1) b Hne)).
Defined.

(** X3. A double, a tile with twice the same face, is stored as it is
    wherever it is accepted: at position 0 by [add_left], at the last
    position by [add_right]. *)
Theorem double_stored_unchanged (d : Domino.t) (b b' : Board.t) :
  first d = second d ->
  (run (add_left d) b = (inr tt, b') -> board b' = d :: board b) /\
  (run (add_right d) b = (inr tt, b') -> board b' = board b ++ [d]).
Proof.
  intros Hd. split; intros Hrun.
  - destruct (add_left_cases d b) as [(t & E & [->| ->] & _)|(E & _)];
      rewrite E in Hrun; try discriminate; injection Hrun as <-; cbn [board].
    + reflexivity.
    + rewrite (double_inverted d Hd). reflexivity.
  - destruct (add_right_cases d b) as [(t & E & [->| ->] & _)|(E & _)];
      rewrite E in Hrun; try discriminate; injection Hrun as <-; cbn [board].
    + reflexivity.
    + rewrite (double_inverted d Hd). reflexivity.
Qed.

Lemma double_stored_unchanged_witness :
  let d := Domino.mk 2 2 in
  let b := Board.mk [Domino.mk 2 5] in
  let b' := Board.mk [Domino.mk 2 2; Domino.mk 2 5] in
  first d = second d /\
  run (add_left d) b = (inr tt, b') /\
  board b' = d :: board b.
Proof.
  intros d b b'.
  assert (Hd : first d = second d) by reflexivity.
  assert (Hrun : run (add_left d) b = (inr tt, b')) by reflexivity.
  split; [exact Hd|]. split; [exact Hrun|].
  exact (proj1 (double_stored_unchanged d b b' Hd) Hrun).
Defined.

(** ** Left and right *)

(** X4. On a board with a tile, [add_left] is [add_right] seen from across
    the table: it accepts a domino on the mirrored board exactly when
    [add_right] accepts it on the board, and the board it leaves is the
    mirror image of the one [add_right] leaves. *)
Theorem add_left_mirrors_add_right (d : Domino.t) (b : Board.t) :
  board b <> [] ->
  run (add_left d) (Board.mk (mirror (board b))) =
  match run (add_right d) b with
  | (inr u, b') => (inr u, Board.mk (mirror (board b')))
  | (inl _, b') => (inl (left_mismatch d), Board.mk (mirror (board b')))
  end.
Proof.
  intros Hne. destruct (ends_of_nonempty _ Hne) as (l & r & _ & HR).
  rewrite add_left_eq, add_right_eq. cbn [board].
  rewrite leftmost_mirror, HR.
  destruct (first d =? r).
  - cbn [board]. rewrite mirror_app. reflexivity.
  - destruct (second d =? r).
    + cbn [board]. rewrite mirror_app, inverted_involutive. reflexivity.
    + reflexivity.
Qed.

Lemma add_left_mirrors_add_right_witness :
  let b := Board.mk [Domino.mk 1 2; Domino.mk 2 6] in
  board b <> [] /\
  run (add_right (Domino.mk 4 6)) b =
  (inr tt, Board.mk [Domino.mk 1 2; Domino.mk 2 6; Domino.mk 6 4]) /\
  run (add_left (Domino.mk 4 6)) (Board.mk [Domino.mk 6 2; Domino.mk 2 1]) =
  (inr tt, Board.mk [Domino.mk 4 6; Domino.mk 6 2; Domino.mk 2 1]).
Proof.
  intros b.
  assert (Hne : board b <> []) by discriminate.
  split; [exact Hne|]. split; [reflexivity|].
  exact (add_left_mirrors_add_right (Domino.mk 4 6) b Hne).
Defined.

(** X5. The same domino twice at the same end: once accepted on a board
    with a tile, it is accepted again, and the end then shows the value it
    showed before the first of the two insertions. *)
Theorem same_tile_twice (d : Domino.t) (b b1 : Board.t) :
  board b <> [] ->
  (run (add_left d) b = (inr tt, b1) ->
   exists b2, run (add_left d) b1 = (inr tt, b2) /\
              fst (run left_end b2) = fst (run left_end b)) /\
  (run (add_right d) b = (inr tt, b1) ->
   exists b2, run (add_right d) b1 = (inr tt, b2) /\
              fst (run right_end b2) = fst (run right_end b)).
Proof.
  intros Hne. destruct (ends_of_nonempty _ Hne) as (l & r & HL & HR).
  split; intros Hrun.
  - rewrite add_left_eq, HL in Hrun.
    destruct (Z.eqb_spec (first d) l) as [E1|N1].
    + injection Hrun as <-. rewrite add_left_eq. cbn [board leftmost inverted first].
      destruct (Z.eqb_spec (first d) (second d)) as [E|N].
      * eexists. split; [reflexivity|]. rewrite !run_left_end, HL. cbn. congruence.
      * rewrite Z.eqb_refl. eexists. split; [reflexivity|].
        rewrite !run_left_end, HL. cbn. congruence.
    + destruct (Z.eqb_spec (second d) l) as [E2|N2]; [|discriminate].
      injection Hrun as <-. rewrite add_left_eq. cbn [board leftmost].
      rewrite Z.eqb_refl. eexists. split; [reflexivity|].
      rewrite !run_left_end, HL. cbn. congruence.
  - rewrite add_right_eq, HR in Hrun.
    destruct (Z.eqb_spec (first d) r) as [E1|N1].
    + injection Hrun as <-. rewrite add_right_eq. cbn [board].
      rewrite rightmost_app.
      destruct (Z.eqb_spec (first d) (second d)) as [E|N].
      * eexists. split; [reflexivity|]. rewrite !run_right_end, HR.
        cbn [board fst]. rewrite rightmost_app. congruence.
      * rewrite Z.eqb_refl. eexists. split; [reflexivity|].
        rewrite !run_right_end, HR. cbn [board fst].
        rewrite rightmost_app. cbn. congruence.
    + destruct (Z.eqb_spec (second d) r) as [E2|N2]; [|discriminate].
      injection Hrun as <-. rewrite add_right_eq. cbn [board].
      rewrite rightmost_app. cbn [inverted first second].
      rewrite Z.eqb_refl. eexists. split; [reflexivity|].
      rewrite !run_right_end, HR. cbn [board fst].
      rewrite rightmost_app. congruence.
Qed.

Lemma same_tile_twice_witness :
  let d := Domino.mk 1 3 in
  let b := Board.mk [Domino.mk 1 2] in
  let b1 := Board.mk [Domino.mk 3 1; Domino.mk 1 2] in
  board b <> [] /\
  run (add_left d) b = (inr tt, b1) /\
  exists b2, run (add_left d) b1 = (inr tt, b2) /\
             fst (run left_end b2) = fst (run left_end b).
Proof.
  intros d b b1.
  assert (Hne : board b <> []) by discriminate.
  assert (Hrun : run (add_left d) b = (inr tt, b1)) by reflexivity.
  split; [exact Hne|]. split; [exact Hrun|].
  exact (proj1 (same_tile_twice d b b1 Hne) Hrun).
Defined.

(** X6. On a board with a tile, a request at the left end and a request at
    the right end can be made in either order: the same ones are accepted
    and the board afterwards is the same. *)
Theorem opposite_ends_commute (d1 d2 : Domino.t) (b : Board.t) :
  board b <> [] ->
  run (try_calls [AddLeft d1; AddRight d2]) b =
  run (try_calls [AddRight d2; AddLeft d1]) b.
Proof.
  intros Hne. destruct (ends_of_nonempty _ Hne) as (l & r & HL & HR).
  assert (HL' : forall u, leftmost (board b ++ [u]) = Some l)
    by (intros u; rewrite leftmost_app; assumption).
  assert (HR' : forall t, rightmost (t :: board b) = Some r)
    by (intros t; rewrite rightmost_cons_ne; assumption).
  rewrite !try_calls_cons. cbn [do_call].
  rewrite (add_left_eq d1 b), (add_right_eq d2 b), HL, HR.
  destruct (first d1 =? l) eqn:E1; destruct (second d1 =? l) eqn:E2;
    destruct (first d2 =? r) eqn:E3; destruct (second d2 =? r) eqn:E4;
    rewrite ?try_calls_cons; cbn [do_call];
    rewrite ?add_left_eq, ?add_right_eq; cbn [board];
    rewrite ?HL', ?HR', ?HL, ?HR, ?E1, ?E2, ?E3, ?E4; reflexivity.
Qed.

Lemma opposite_ends_commute_witness :
  let b := Board.mk [Domino.mk 1 2] in
  board b <> [] /\
  run (try_calls [AddLeft (Domino.mk 1 3); AddRight (Domino.mk 5 2)]) b =
  (inr 2%nat, Board.mk [Domino.mk 3 1; Domino.mk 1 2; Domino.mk 2 5]) /\
  run (try_calls [AddRight (Domino.mk 5 2); AddLeft (Domino.mk 1 3)]) b =
  (inr 2%nat, Board.mk [Domino.mk 3 1; Domino.mk 1 2; Domino.mk 2 5]).
Proof.
  intros b.
  assert (Hne : board b <> []) by discriminate.
  split; [exact Hne|]. split; [reflexivity|].
  rewrite <- (opposite_ends_commute (Domino.mk 1 3) (Domino.mk 5 2) b Hne).
  reflexivity.
Defined.

(** ** What a sequence of requests leaves on the board *)

(** The counting caller never raises; it leaves the old tiles in place
    between the new ones, and every new tile comes from a request. *)
Lemma try_calls_grows (cs : list call) (b : Board.t) :
  exists (k : nat) (b' : Board.t) (l r : deque.t),
    run (try_calls cs) b = (inr k, b') /\
    board b' = l ++ board b ++ r /\
    (List.length l + List.length r = k)%nat /\
    Forall (fun t => exists c, In c cs /\
                               (t = offered c \/ t = inverted (offered c)))
           (l ++ r).
Proof.
  revert b. induction cs as [|c cs IH]; intros b.
  - exists 0%nat, b, [], []. repeat split.
    + cbn. rewrite app_nil_r. reflexivity.
    + constructor.
  - rewrite try_calls_cons.
    assert (Hstep : exists (r1 : exn + unit) (b1 : Board.t) (l1 r1' : deque.t),
               run (do_call c) b = (r1, b1) /\
               board b1 = l1 ++ board b ++ r1' /\
               (List.length l1 + List.length r1')%nat =
               match r1 with inr _ => 1%nat | inl _ => 0%nat end /\
               Forall (fun t => t = offered c \/ t = inverted (offered c))
                      (l1 ++ r1')).
    { destruct c as [d|d]; cbn [do_call offered].
      - destruct (add_left_cases d b) as [(t & E & Ht & _)|(E & _)].
        + exists (inr tt), (Board.mk (t :: board b)), [t], [].
          repeat split; [exact E|cbn; rewrite app_nil_r; reflexivity|].
          constructor; [exact Ht|constructor].
        + exists (inl (left_mismatch d)), b, [], [].
          repeat split; [exact E|cbn; rewrite app_nil_r; reflexivity|].
          constructor.
      - destruct (add_right_cases d b) as [(t & E & Ht & _)|(E & _)].
        + exists (inr tt), (Board.mk (board b ++ [t])), [], [t].
          repeat split; [exact E|].
          constructor; [exact Ht|constructor].
        + exists (inl (right_mismatch d)), b, [], [].
          repeat split; [exact E|cbn; rewrite app_nil_r; reflexivity|].
          constructor. }
    destruct Hstep as (r1 & b1 & l1 & r1' & E1 & B1 & L1 & F1).
    destruct (IH b1) as (k & b2 & l2 & r2 & E2 & B2 & L2 & F2).
    rewrite E1, E2.
    exists ((match r1 with inr _ => 1 | inl _ => 0 end) + k)%nat, b2,
      (l2 ++ l1), (r1' ++ r2).
    split; [reflexivity|]. split; [|split].
    + rewrite B2, B1, <- !app_assoc. reflexivity.
    + rewrite !length_app. lia.
    + apply Forall_app in F1 as [F1l F1r]. apply Forall_app in F2 as [F2l F2r].
      assert (G1 : forall q,
                 Forall (fun t => t = offered c \/ t = inverted (offered c)) q ->
                 Forall (fun t => exists c0, In c0 (c :: cs) /\
                            (t = offered c0 \/ t = inverted (offered c0))) q).
      { intros q. apply Forall_impl. intros t Ht. exists c. split; [left; reflexivity|exact Ht]. }
      assert (G2 : forall q,
                 Forall (fun t => exists c0, In c0 cs /\
                            (t = offered c0 \/ t = inverted (offered c0))) q ->
                 Forall (fun t => exists c0, In c0 (c :: cs) /\
                            (t = offered c0 \/ t = inverted (offered c0))) q).
      { intros q. apply Forall_impl. intros t (c0 & Hin & Ht).
        exists c0. split; [right; exact Hin|exact Ht]. }
      repeat (apply Forall_app; split); auto.
Qed.

(** X7. Whatever requests are made, accepted or refused, the tiles already
    on the board stay, next to each other, in order and the same way round:
    the board afterwards is the board before with tiles added to its left
    and to its right, as many as requests were accepted. *)
Theorem board_only_grows_at_ends (cs : list call) (b : Board.t) :
  exists (k : nat) (b' : Board.t) (l r : deque.t),
    run (try_calls cs) b = (inr k, b') /\
    board b' = l ++ board b ++ r /\
    (List.length l + List.length r = k)%nat.
Proof.
  destruct (try_calls_grows cs b) as (k & b' & l & r & E & B & L & _).
  exists k, b', l, r. auto.
Qed.

(** X8. The board holds nothing but what was offered: after any requests
    on a fresh board, each stored tile is the domino of one of the
    requests, as offered or turned round. *)
Theorem stored_tiles_were_offered (cs : list call) :
  exists (k : nat) (b' : Board.t),
    run (try_calls cs) __init__ = (inr k, b') /\
    forall t : Domino.t,
      In t (board b') ->
      exists c, In c cs /\ (t = offered c \/ t = inverted (offered c)).
Proof.
  destruct (try_calls_grows cs __init__) as (k & b' & l & r & E & B & _ & F).
  exists k, b'. split; [exact E|].
  intros t Ht. rewrite B in Ht. cbn [board __init__ deque.empty app] in Ht.
  rewrite Forall_forall in F. apply F. exact Ht.
Qed.

(** X9. Once a tile is on the board the ends are there for good: after any
    further requests, accepted or refused, [left_end] and [right_end]
    return a value and do not raise. *)
Theorem ends_stay_available (cs : list call) (b : Board.t) :
  board b <> [] ->
  exists (k : nat) (b' : Board.t) (l r : Z),
    run (try_calls cs) b = (inr k, b') /\
    run left_end b' = (inr l, b') /\
    run right_end b' = (inr r, b').
Proof.
  intros Hne.
  destruct (try_calls_grows cs b) as (k & b' & l & r & E & B & _ & _).
  assert (Hne' : board b' <> []).
  { rewrite B. intros H. apply app_eq_nil in H as [_ H].
    apply app_eq_nil in H as [H _]. exact (Hne H). }
  destruct (ends_of_nonempty _ Hne') as (x & y & HL & HR).
  exists k, b', x, y. split; [exact E|]. split.
  - apply left_end_value. exact HL.
  - apply right_end_value. exact HR.
Qed.

Lemma ends_stay_available_witness :
  let b := Board.mk [Domino.mk 1 2] in
  let cs := [AddRight (Domino.mk 1 3); AddLeft (Domino.mk 1 3)] in
  board b <> [] /\
  exists (k : nat) (b' : Board.t) (l r : Z),
    run (try_calls cs) b = (inr k, b') /\
    run left_end b' = (inr l, b') /\
    run right_end b' = (inr r, b').
Proof.
  intros b cs.
  assert (Hne : board b <> []) by discriminate.
  split; [exact Hne|].
  exact (ends_stay_available cs b Hne).
Defined.

(** ** Rendering after an insertion *)

Lemma string_append_assoc (s1 s2 s3 : string) :
  ((s1 ++ s2) ++ s3)%string = (s1 ++ s2 ++ s3)%string.
Proof. induction s1 as [|a s1 IH]; cbn; [reflexivity|]. rewrite IH. reflexivity. Qed.

Lemma join_empty_app (l1 l2 : list string) :
  join "" (l1 ++ l2) = (join "" l1 ++ join "" l2)%string.
Proof.
  rewrite !join_empty. induction l1 as [|x l1 IH]; cbn; [reflexivity|].
  rewrite IH, string_append_assoc. reflexivity.
Qed.

Lemma run_str (b : Board.t) :
  run Board.__str__ b = (inr (join "" (map Domino.__str__ (board b))), b).
Proof. reflexivity. Qed.

(** X10. An accepted insertion writes one tile at one end of the
    rendering: after [add_left] the text is the string of the stored tile
    followed by the old text, after [add_right] the old text followed by
    the string of the stored tile, the stored tile being the domino as
    offered or turned round. *)
Theorem render_after_insertion (d : Domino.t) (b b' : Board.t) (s : string) :
  run Board.__str__ b = (inr s, b) ->
  (run (add_left d) b = (inr tt, b') ->
   exists t, (t = d \/ t = inverted d) /\
             run Board.__str__ b' = (inr (Domino.__str__ t ++ s)%string, b')) /\
  (run (add_right d) b = (inr tt, b') ->
   exists t, (t = d \/ t = inverted d) /\
             run Board.__str__ b' = (inr (s ++ Domino.__str__ t)%string, b')).
Proof.
  rewrite run_str. intros Hs. injection Hs as <-. split; intros Hrun.
  - destruct (add_left_cases d b) as [(t & E & Ht & _)|(E & _)];
      rewrite E in Hrun; [|discriminate].
    injection Hrun as <-. exists t. split; [exact Ht|].
    rewrite run_str. cbn [board].
    change (t :: board b) with ([t] ++ board b).
    rewrite map_app, join_empty_app. reflexivity.
  - destruct (add_right_cases d b) as [(t & E & Ht & _)|(E & _)];
      rewrite E in Hrun; [|discriminate].
    injection Hrun as <-. exists t. split; [exact Ht|].
    rewrite run_str. cbn [board].
    rewrite map_app, join_empty_app. reflexivity.
Qed.

Lemma render_after_insertion_witness :
  let b := Board.mk [Domino.mk 1 2] in
  let b' := Board.mk [Domino.mk 1 2; Domino.mk 2 5] in
  run Board.__str__ b = (inr "[1|2]"%string, b) /\
  run (add_right (Domino.mk 5 2)) b = (inr tt, b') /\
  exists t, (t = Domino.mk 5 2 \/ t = inverted (Domino.mk 5 2)) /\
            run Board.__str__ b' =
            (inr ("[1|2]" ++ Domino.__str__ t)%string, b').
Proof.
  intros b b'.
  assert (Hs : run Board.__str__ b = (inr "[1|2]"%string, b)) by reflexivity.
  assert (Hrun : run (add_right (Domino.mk 5 2)) b = (inr tt, b')) by reflexivity.
  split; [exact Hs|]. split; [exact Hrun|].
  exact (proj2 (render_after_insertion (Domino.mk 5 2) b b' "[1|2]" Hs) Hrun).
Defined.
